(** * TaskFlow: the Task model and its owner-scoped services

    A shallow embedding of [app/models/task.py] (the [TaskStatus] and
    [TaskPriority] enumerations, the [Task] columns, [soft_delete], [restore]
    and [is_overdue]) together with the query and command services that the
    application mounts under [/api/v1].

    Conventions.
    - A Python attribute that may be [None] is an [option]; an ORM object that
      has not been flushed has every attribute it was not given set to [None].
    - A naive UTC [datetime] is an integer count of microseconds, so that
      [timedelta(days=1)] is [day].  [datetime.utcnow()] is the explicit
      argument [now] of the operation that reads the clock.
    - A table with an integer primary key is a finite map from keys to rows. *)

From stdpp Require Import gmap strings list fin_maps sorting.
From Stdlib Require Import ZArith Lia.

Local Open Scope Z_scope.

(** ** Time *)

Abbreviation datetime := Z (only parsing).

Definition microsecond : Z := 1.
Definition day : Z := 86400 * 1000000 * microsecond.

(** ** Enumerations ([class TaskStatus(str, enum.Enum)] and
       [class TaskPriority(str, enum.Enum)]) *)

Inductive TaskStatus : Set := PENDING | IN_PROGRESS | COMPLETED | CANCELLED.
Inductive TaskPriority : Set := LOW | MEDIUM | HIGH | URGENT.

#[global] Instance TaskStatus_eq_dec : EqDecision TaskStatus.
Proof. solve_decision. Defined.

#[global] Instance TaskPriority_eq_dec : EqDecision TaskPriority.
Proof. solve_decision. Defined.

(** The [.value] of a member. *)
Definition TaskStatus_value (s : TaskStatus) : string :=
  match s with
  | PENDING => "pending"
  | IN_PROGRESS => "in_progress"
  | COMPLETED => "completed"
  | CANCELLED => "cancelled"
  end.

Definition TaskPriority_value (p : TaskPriority) : string :=
  match p with
  | LOW => "low"
  | MEDIUM => "medium"
  | HIGH => "high"
  | URGENT => "urgent"
  end.

Definition TaskStatus_members : list TaskStatus :=
  [PENDING; IN_PROGRESS; COMPLETED; CANCELLED].

Definition TaskPriority_members : list TaskPriority :=
  [LOW; MEDIUM; HIGH; URGENT].

(** Lookup by value, [TaskStatus("pending")]: the first member, in
    definition order, whose value is the argument; Python raises
    [ValueError] when there is none, here [None]. *)
Fixpoint enum_by_value {A : Type} (value_of : A → string) (members : list A)
    (raw : string) : option A :=
  match members with
  | [] => None
  | m :: rest =>
      if String.eqb (value_of m) raw then Some m
      else enum_by_value value_of rest raw
  end.

Definition TaskStatus_of_value : string → option TaskStatus :=
  enum_by_value TaskStatus_value TaskStatus_members.

Definition TaskPriority_of_value : string → option TaskPriority :=
  enum_by_value TaskPriority_value TaskPriority_members.

(** ** Column declarations

    What a [Column(...)] of the model says about the values the store fills
    in: [default=] is applied by the ORM when a row is INSERTed without a
    value for the column, [server_default=func.now()] by the database on
    INSERT, [onupdate=func.now()] on an UPDATE of the row that does not set
    the column itself.  None of them acts on the in-memory object when it is
    constructed. *)

Record Column (A : Type) : Type := mkColumn {
  col_default : option A;
  col_server_default_now : bool;
  col_onupdate_now : bool;
}.
Arguments mkColumn {A} _ _ _.
Arguments col_default {A} _.
Arguments col_server_default_now {A} _.
Arguments col_onupdate_now {A} _.

Module Task.

(** An instance of [class Task(Base)]: one attribute per column.  The
    [owner] relationship is a view of [owner_id] and is not kept here. *)
Record t : Type := mk {
  id : option Z;
  title : option string;
  description : option string;
  status : option TaskStatus;
  priority : option TaskPriority;
  due_date : option datetime;
  owner_id : option Z;
  created_at : option datetime;
  updated_at : option datetime;
  is_deleted : option bool;
  deleted_at : option datetime;
}.

#[global] Instance eq_dec : EqDecision t.
Proof. solve_decision. Defined.

(** The columns, in the order of the class body. *)
Definition id_col : Column Z := mkColumn None false false.
Definition title_col : Column string := mkColumn None false false.
Definition description_col : Column string := mkColumn None false false.
Definition status_col : Column TaskStatus := mkColumn (Some PENDING) false false.
Definition priority_col : Column TaskPriority := mkColumn (Some MEDIUM) false false.
Definition due_date_col : Column datetime := mkColumn None false false.
Definition owner_id_col : Column Z := mkColumn None false false.
Definition created_at_col : Column datetime := mkColumn None true false.
Definition updated_at_col : Column datetime := mkColumn None false true.
Definition is_deleted_col : Column bool := mkColumn (Some false) false false.
Definition deleted_at_col : Column datetime := mkColumn None false false.

(** One attribute assignment [self.<name> = value]. *)
Inductive attr : Type :=
| a_id (v : option Z)
| a_title (v : option string)
| a_description (v : option string)
| a_status (v : option TaskStatus)
| a_priority (v : option TaskPriority)
| a_due_date (v : option datetime)
| a_owner_id (v : option Z)
| a_created_at (v : option datetime)
| a_updated_at (v : option datetime)
| a_is_deleted (v : option bool)
| a_deleted_at (v : option datetime).

Definition setattr (self : t) (a : attr) : t :=
  match a with
  | a_id v =>
      mk v (title self) (description self) (status self) (priority self)
        (due_date self) (owner_id self) (created_at self) (updated_at self)
        (is_deleted self) (deleted_at self)
  | a_title v =>
      mk (id self) v (description self) (status self) (priority self)
        (due_date self) (owner_id self) (created_at self) (updated_at self)
        (is_deleted self) (deleted_at self)
  | a_description v =>
      mk (id self) (title self) v (status self) (priority self)
        (due_date self) (owner_id self) (created_at self) (updated_at self)
        (is_deleted self) (deleted_at self)
  | a_status v =>
      mk (id self) (title self) (description self) v (priority self)
        (due_date self) (owner_id self) (created_at self) (updated_at self)
        (is_deleted self) (deleted_at self)
  | a_priority v =>
      mk (id self) (title self) (description self) (status self) v
        (due_date self) (owner_id self) (created_at self) (updated_at self)
        (is_deleted self) (deleted_at self)
  | a_due_date v =>
      mk (id self) (title self) (description self) (status self)
        (priority self) v (owner_id self) (created_at self)
        (updated_at self) (is_deleted self) (deleted_at self)
  | a_owner_id v =>
      mk (id self) (title self) (description self) (status self)
        (priority self) (due_date self) v (created_at self)
        (updated_at self) (is_deleted self) (deleted_at self)
  | a_created_at v =>
      mk (id self) (title self) (description self) (status self)
        (priority self) (due_date self) (owner_id self) v
        (updated_at self) (is_deleted self) (deleted_at self)
  | a_updated_at v =>
      mk (id self) (title self) (description self) (status self)
        (priority self) (due_date self) (owner_id self) (created_at self)
        v (is_deleted self) (deleted_at self)
  | a_is_deleted v =>
      mk (id self) (title self) (description self) (status self)
        (priority self) (due_date self) (owner_id self) (created_at self)
        (updated_at self) v (deleted_at self)
  | a_deleted_at v =>
      mk (id self) (title self) (description self) (status self)
        (priority self) (due_date self) (owner_id self) (created_at self)
        (updated_at self) (is_deleted self) v
  end.

(** The keyword that names the attribute. *)
Definition attr_name (a : attr) : string :=
  match a with
  | a_id _ => "id"
  | a_title _ => "title"
  | a_description _ => "description"
  | a_status _ => "status"
  | a_priority _ => "priority"
  | a_due_date _ => "due_date"
  | a_owner_id _ => "owner_id"
  | a_created_at _ => "created_at"
  | a_updated_at _ => "updated_at"
  | a_is_deleted _ => "is_deleted"
  | a_deleted_at _ => "deleted_at"
  end.

(** An object no attribute of which was ever assigned. *)
Definition blank : t :=
  mk None None None None None None None None None None None.

(** [Task(title=..., owner_id=...)].  The class body defines no
    [__init__]: the constructor is the declarative one of [Base], which
    assigns the keyword arguments it is given, one [setattr] each, and
    nothing else. *)
Definition init (kwargs : list attr) : t := foldl setattr blank kwargs.

(** [def soft_delete(self)] *)
Definition soft_delete (now : datetime) (self : t) : t :=
  let self := setattr self (a_is_deleted (Some true)) in
  setattr self (a_deleted_at (Some now)).

(** [def restore(self)] *)
Definition restore (self : t) : t :=
  let self := setattr self (a_is_deleted (Some false)) in
  setattr self (a_deleted_at None).

(** [@property def is_overdue(self) -> bool].  A [datetime] is always
    truthy, so [self.due_date and ...] tests that the due date is set;
    [self.status != TaskStatus.COMPLETED] holds of an unset status. *)
Definition is_overdue (now : datetime) (self : t) : bool :=
  match due_date self with
  | Some due =>
      if bool_decide (status self ≠ Some COMPLETED)
      then bool_decide (now > due)
      else false
  | None => false
  end.

(** *** Writing the object to the table *)

(** The value an INSERT stores for a column the object leaves unset. *)
Definition insert_value {A : Type} (c : Column A) (now : option A)
    (v : option A) : option A :=
  match v with
  | Some x => Some x
  | None =>
      match col_default c with
      | Some d => Some d
      | None => if col_server_default_now c then now else None
      end
  end.

(** The value an UPDATE stores for a column, [committed] being the value of
    the row and [v] the value of the object.  A value that was changed is in
    the SET clause and is stored as it is; [onupdate] acts only on a column
    that the SET clause does not name. *)
Definition update_value {A : Type} `{EqDecision A} (c : Column A)
    (now : option A) (committed v : option A) : option A :=
  if decide (v = committed) then
    if col_onupdate_now c then now else v
  else v.

(** The row an INSERT of [self] writes at time [now], the table handing out
    [fresh] as the next autoincrement key when the object has none. *)
Definition inserted (now : datetime) (fresh : Z) (self : t) : t :=
  mk (match id self with Some k => Some k | None => Some fresh end)
     (insert_value title_col None (title self))
     (insert_value description_col None (description self))
     (insert_value status_col None (status self))
     (insert_value priority_col None (priority self))
     (insert_value due_date_col (Some now) (due_date self))
     (insert_value owner_id_col None (owner_id self))
     (insert_value created_at_col (Some now) (created_at self))
     (insert_value updated_at_col (Some now) (updated_at self))
     (insert_value is_deleted_col None (is_deleted self))
     (insert_value deleted_at_col (Some now) (deleted_at self)).

(** The row a flush of [self] leaves at time [now], [committed] being the row
    as the session loaded it.  An object without net change sends no UPDATE
    and the row stays as it is; otherwise one UPDATE sets the changed
    columns, and the [onupdate] columns that are not among them take the
    time of the statement. *)
Definition updated (now : datetime) (committed self : t) : t :=
  if decide (self = committed) then committed
  else
    mk (update_value id_col None (id committed) (id self))
       (update_value title_col None (title committed) (title self))
       (update_value description_col None (description committed)
          (description self))
       (update_value status_col None (status committed) (status self))
       (update_value priority_col None (priority committed) (priority self))
       (update_value due_date_col (Some now) (due_date committed)
          (due_date self))
       (update_value owner_id_col None (owner_id committed) (owner_id self))
       (update_value created_at_col (Some now) (created_at committed)
          (created_at self))
       (update_value updated_at_col (Some now) (updated_at committed)
          (updated_at self))
       (update_value is_deleted_col None (is_deleted committed)
          (is_deleted self))
       (update_value deleted_at_col (Some now) (deleted_at committed)
          (deleted_at self)).

End Task.

(** The object built by the model tests of [tests/test_tasks.py]. *)
Definition test_task : Task.t :=
  Task.init [Task.a_title (Some "Test Task"); Task.a_description (Some "Test");
             Task.a_owner_id (Some 1)].

(** ** Errors of the services *)

(** Modelled from the spec: the three error kinds of the core (section 7);
    the services themselves are in the router package, of which the
    repository shows the tests and the mounting in [app/main.py]. *)
Inductive Error : Set := ValidationError | NotFound | InvalidArgument.

Inductive Result (A : Type) : Type :=
| Ok (a : A)
| Fail (e : Error).
Arguments Ok {A} a.
Arguments Fail {A} e.

#[global] Instance Result_ret : MRet Result := @Ok.
#[global] Instance Result_bind : MBind Result :=
  λ A B f m, match m with Ok a => f a | Fail e => Fail e end.
#[global] Instance Result_fmap : FMap Result :=
  λ A B f m, match m with Ok a => Ok (f a) | Fail e => Fail e end.

(** ** The task table

    Modelled from the spec: the record store, an external collaborator, is
    the table [tasks] keyed by the primary key.  The autoincrement key of a
    new row is one more than the largest key in use.  A write of an object
    stores the row that the column declarations of the model give it. *)

Abbreviation Store := (gmap Z Task.t) (only parsing).

Definition max_key (db : Store) : Z := foldr Z.max 0 (map_to_list db).*1.
Definition fresh_id (db : Store) : Z := max_key db + 1.

(** [db.add(task); db.commit(); db.refresh(task)] for a new object.  The
    services never choose the key themselves, so the row goes under the
    fresh key. *)
Definition db_insert (now : datetime) (obj : Task.t) (db : Store)
    : Store * Task.t :=
  let row := Task.inserted now (fresh_id db) obj in
  (<[default (fresh_id db) (Task.id row) := row]> db, row).

(** [db.commit(); db.refresh(task)] for an object that the session loaded
    as the row [committed], stored under [key]: the flush of its pending
    changes, which is one UPDATE of that row or nothing. *)
Definition db_update (now : datetime) (key : Z) (committed obj : Task.t)
    (db : Store) : Store * Task.t :=
  let row := Task.updated now committed obj in
  (<[key := row]> db, row).

(** ** Request payloads *)

(** Modelled from the spec: the payload of [create_task]; the enumeration
    fields arrive as strings, as in the requests of [tests/test_tasks.py]. *)
Record TaskCreate : Type := mkTaskCreate {
  c_title : option string;
  c_description : option string;
  c_status : option string;
  c_priority : option string;
  c_due_date : option datetime;
}.

(** Modelled from the spec: the partial payload of [update_task]; a field
    that is [None] is absent. *)
Record TaskUpdate : Type := mkTaskUpdate {
  u_title : option string;
  u_description : option string;
  u_status : option string;
  u_priority : option string;
  u_due_date : option datetime;
  u_id : option Z;
  u_owner_id : option Z;
  u_created_at : option datetime;
}.

(** Modelled from the spec: the filters and the page of [list_tasks]. *)
Record TaskFilters : Type := mkTaskFilters {
  f_status : option TaskStatus;
  f_priority : option TaskPriority;
  f_due_before : option datetime;
  f_due_after : option datetime;
}.

Record Pagination : Type := mkPagination {
  offset : Z;
  limit : Z;
}.

(** ** Validation *)

(** Modelled from the spec: a title is required and not empty. *)
Definition validate_title (raw : option string) : Result string :=
  match raw with
  | Some s => if bool_decide (s = EmptyString) then Fail ValidationError else Ok s
  | None => Fail ValidationError
  end.

(** Modelled from the spec: an enumeration field that is present must be the
    value of a member; [of_value] is the lookup of the enumeration class. *)
Definition validate_enum {A : Type} (of_value : string → option A)
    (raw : option string) : Result (option A) :=
  match raw with
  | None => Ok None
  | Some r =>
      match of_value r with
      | Some m => Ok (Some m)
      | None => Fail ValidationError
      end
  end.

(** Modelled from the spec: a title that is optional, as in an update, but
    not empty when sent. *)
Definition validate_present_title (raw : option string)
    : Result (option string) :=
  match raw with
  | Some s => Some <$> validate_title (Some s)
  | None => Ok None
  end.

(** Modelled from the spec: an immutable field may be repeated in an update
    only with its current value. *)
Definition validate_immutable {A : Type} `{EqDecision A}
    (current sent : option A) : Result unit :=
  match sent with
  | None => Ok ()
  | Some v => if bool_decide (current = Some v) then Ok () else Fail ValidationError
  end.

(** The keyword argument [mk (Some v)] when the payload has the field. *)
Definition kwarg {A : Type} (mk : option A → Task.attr) (v : option A)
    : list Task.attr :=
  match v with
  | Some x => [mk (Some x)]
  | None => []
  end.

(** ** Query service *)

(** Modelled from the spec: the visibility rule shared by every owner-scoped
    operation, [owner_id = ? AND is_deleted = false]. *)
Definition visible_to (owner : Z) (row : Task.t) : bool :=
  bool_decide (Task.owner_id row = Some owner)
  && bool_decide (Task.is_deleted row = Some false).

(** Modelled from the spec: [get_task(owner_id, task_id)] of the query
    service (the router under [app/api/v1]).  It fails with [NotFound] if no
    task with that id exists, or it belongs to a different owner, or it is
    soft-deleted. *)
Definition get_task (owner : Z) (task_id : Z) (db : Store) : Result Task.t :=
  match db !! task_id with
  | Some row => if visible_to owner row then Ok row else Fail NotFound
  | None => Fail NotFound
  end.

(** Modelled from the spec: the filters that are present, combined with
    AND; a task without due date matches no due-date filter. *)
Definition matches (f : TaskFilters) (row : Task.t) : bool :=
  from_option (λ s, bool_decide (Task.status row = Some s)) true (f_status f)
  && from_option (λ p, bool_decide (Task.priority row = Some p)) true
       (f_priority f)
  && from_option
       (λ d, from_option (λ due, bool_decide (due < d)) false (Task.due_date row))
       true (f_due_before f)
  && from_option
       (λ d, from_option (λ due, bool_decide (d < due)) false (Task.due_date row))
       true (f_due_after f).

(** Modelled from the spec: [created_at] descending; a row without the
    timestamp sorts last. *)
Definition newer_first (a b : Task.t) : Prop :=
  match Task.created_at a, Task.created_at b with
  | Some x, Some y => y ≤ x
  | Some _, None => True
  | None, Some _ => False
  | None, None => True
  end.

#[global] Instance newer_first_dec : RelDecision newer_first.
Proof.
  intros a b. unfold newer_first.
  destruct (Task.created_at a), (Task.created_at b); apply _.
Defined.

(** Modelled from the spec: [list_tasks(owner_id, filters, pagination)] of the
    query service.  [MAX_PAGE_SIZE] is a setting of the application.  The
    result is restricted to the owner's rows that are not soft-deleted, the
    filters are combined with AND, the order is [created_at] descending, and
    pagination out of range fails with [InvalidArgument]. *)
Definition list_tasks (MAX_PAGE_SIZE : Z) (owner : Z) (f : TaskFilters)
    (p : Pagination) (db : Store) : Result (list Task.t) :=
  if bool_decide (0 ≤ offset p ∧ 1 ≤ limit p ≤ MAX_PAGE_SIZE) then
    let rows := (map_to_list db).*2 in
    let rows := filter (λ row, visible_to owner row = true) rows in
    let rows := filter (λ row, matches f row = true) rows in
    let rows := merge_sort newer_first rows in
    Ok (take (Z.to_nat (limit p)) (drop (Z.to_nat (offset p)) rows))
  else Fail InvalidArgument.

(** ** Command service *)

(** Modelled from the spec: [create_task(owner_id, payload)] of the command
    service.  It requires a non-empty title, rejects unrecognized enumeration
    values with [ValidationError], leaves absent [status] and [priority] to
    the column defaults, and sets [owner_id], [created_at] and [updated_at]. *)
Definition create_task (now : datetime) (owner : Z) (p : TaskCreate)
    (db : Store) : Result (Store * Task.t) :=
  title ← validate_title (c_title p);
  status ← validate_enum TaskStatus_of_value (c_status p);
  priority ← validate_enum TaskPriority_of_value (c_priority p);
  let task :=
    Task.init
      (Task.a_title (Some title)
       :: kwarg Task.a_description (c_description p)
       ++ kwarg Task.a_status status
       ++ kwarg Task.a_priority priority
       ++ kwarg Task.a_due_date (c_due_date p)
       ++ [Task.a_owner_id (Some owner); Task.a_updated_at (Some now)]) in
  Ok (db_insert now task db).

(** Modelled from the spec: the assignments of a partial update, only the
    fields that are present. *)
Definition apply_update (title : option string) (description : option string)
    (status : option TaskStatus) (priority : option TaskPriority)
    (due_date : option datetime) (task : Task.t) : Task.t :=
  foldl Task.setattr task
    (kwarg Task.a_title title
     ++ kwarg Task.a_description description
     ++ kwarg Task.a_status status
     ++ kwarg Task.a_priority priority
     ++ kwarg Task.a_due_date due_date).

(** Modelled from the spec: [update_task(owner_id, task_id, partial_payload)]
    of the command service.  It fails with [NotFound] as [get_task] does,
    validates the enumeration fields as create does, rejects a changed
    [id], [owner_id] or [created_at], applies the fields that are present and
    refreshes [updated_at]. *)
Definition update_task (now : datetime) (owner : Z) (task_id : Z)
    (p : TaskUpdate) (db : Store) : Result (Store * Task.t) :=
  task ← get_task owner task_id db;
  _ ← validate_immutable (Task.id task) (u_id p);
  _ ← validate_immutable (Task.owner_id task) (u_owner_id p);
  _ ← validate_immutable (Task.created_at task) (u_created_at p);
  title ← validate_present_title (u_title p);
  status ← validate_enum TaskStatus_of_value (u_status p);
  priority ← validate_enum TaskPriority_of_value (u_priority p);
  let changed :=
    apply_update title (u_description p) status priority (u_due_date p) task in
  Ok (db_update now task_id task changed db).

(** Modelled from the spec: [delete_task(owner_id, task_id)] of the command
    service.  It fails with [NotFound] as [get_task] does; otherwise it
    invokes [soft_delete()] and persists. *)
Definition delete_task (now : datetime) (owner : Z) (task_id : Z)
    (db : Store) : Result Store :=
  task ← get_task owner task_id db;
  Ok (db_update now task_id task (Task.soft_delete now task) db).1.

(** Modelled from the spec: [restore_task(owner_id, task_id)] of the command
    service, the symmetric operation: it looks among the owner's rows,
    soft-deleted or not, invokes [restore()] and persists. *)
Definition restore_task (now : datetime) (owner : Z) (task_id : Z)
    (db : Store) : Result (Store * Task.t) :=
  match db !! task_id with
  | Some task =>
      if bool_decide (Task.owner_id task = Some owner)
      then Ok (db_update now task_id task (Task.restore task) db)
      else Fail NotFound
  | None => Fail NotFound
  end.

(** ** Histories of the store *)

(** Modelled from the spec: the four commands of the command service, each
    with the time of the request. *)
Inductive Command : Type :=
| Create (now : datetime) (owner : Z) (p : TaskCreate)
| Update (now : datetime) (owner : Z) (task_id : Z) (p : TaskUpdate)
| Delete (now : datetime) (owner : Z) (task_id : Z)
| Restore (now : datetime) (owner : Z) (task_id : Z).

(** Modelled from the spec: an error is terminal and has no partial effect,
    so a failed command leaves the store as it was. *)
Definition step (db : Store) (c : Command) : Store :=
  match c with
  | Create now owner p =>
      match create_task now owner p db with Ok r => r.1 | Fail _ => db end
  | Update now owner task_id p =>
      match update_task now owner task_id p db with Ok r => r.1 | Fail _ => db end
  | Delete now owner task_id =>
      match delete_task now owner task_id db with Ok db' => db' | Fail _ => db end
  | Restore now owner task_id =>
      match restore_task now owner task_id db with Ok r => r.1 | Fail _ => db end
  end.

Definition run (history : list Command) : Store := foldl step ∅ history.

(** Calls of the two lifecycle methods on one object. *)
Inductive LifecycleCall : Type :=
| call_soft_delete (now : datetime)
| call_restore.

Definition call (self : Task.t) (c : LifecycleCall) : Task.t :=
  match c with
  | call_soft_delete now => Task.soft_delete now self
  | call_restore => Task.restore self
  end.

Definition calls (cs : list LifecycleCall) (self : Task.t) : Task.t :=
  foldl call self cs.

(** The life of one persistent object: calls of its two methods, and flushes
    of its pending changes.  The state is the row as the session knows it
    together with the object. *)
Inductive ObjectEvent : Type :=
| ev_call (c : LifecycleCall)
| ev_update (now : datetime).

Definition event (s : Task.t * Task.t) (e : ObjectEvent) : Task.t * Task.t :=
  match e with
  | ev_call c => (s.1, call s.2 c)
  | ev_update now => let row := Task.updated now s.1 s.2 in (row, row)
  end.

(** The object after the events, from the row [committed] and the object
    [self], which may have assignments pending. *)
Definition events_from (committed self : Task.t) (es : list ObjectEvent)
    : Task.t :=
  (foldl event (committed, self) es).2.

(** The object after the events, from a row with nothing pending. *)
Definition events (es : list ObjectEvent) (self : Task.t) : Task.t :=
  events_from self self es.

(** Reading the attribute that [a] names gives the value that [a] carries. *)
Definition reads (self : Task.t) (a : Task.attr) : Prop :=
  match a with
  | Task.a_id v => Task.id self = v
  | Task.a_title v => Task.title self = v
  | Task.a_description v => Task.description self = v
  | Task.a_status v => Task.status self = v
  | Task.a_priority v => Task.priority self = v
  | Task.a_due_date v => Task.due_date self = v
  | Task.a_owner_id v => Task.owner_id self = v
  | Task.a_created_at v => Task.created_at self = v
  | Task.a_updated_at v => Task.updated_at self = v
  | Task.a_is_deleted v => Task.is_deleted self = v
  | Task.a_deleted_at v => Task.deleted_at self = v
  end.

(** The soft-delete invariant of a task. *)
Definition deletion_consistent (task : Task.t) : Prop :=
  Task.deleted_at task ≠ None ↔ Task.is_deleted task = Some true.

(** What hides a task id from an owner: no such row, a row of another owner,
    or a soft-deleted row. *)
Definition hidden_from (owner : Z) (task_id : Z) (db : Store) : Prop :=
  db !! task_id = None
  ∨ (∃ row, db !! task_id = Some row ∧ Task.owner_id row ≠ Some owner)
  ∨ (∃ row, db !! task_id = Some row ∧ Task.is_deleted row = Some true).

(** What every row of the table satisfies after any history of commands. *)
Definition row_ok (key : Z) (row : Task.t) : Prop :=
  Task.id row = Some key ∧ Task.is_deleted row ≠ None
  ∧ deletion_consistent row.

(** ** Sample requests

    The create request of [test_create_task], sent at time [now], and a short
    history over two owners: owner 1 creates tasks 1, 3 and 4 and deletes
    task 3, owner 2 creates task 2. *)

Definition sample_create (now : datetime) : TaskCreate :=
  mkTaskCreate (Some "Test Task") (Some "This is a test task") None
    (Some "high") (Some (now + 7 * day)).

Definition sample_history : list Command :=
  [Create 10 1 (sample_create 10); Create 11 2 (sample_create 11);
   Create 12 1 (sample_create 12); Delete 13 1 3;
   Create 14 1 (sample_create 14)].

Definition sample_row (key : Z) (created : datetime) : Task.t :=
  Task.mk (Some key) (Some "Test Task") (Some "This is a test task")
    (Some PENDING) (Some HIGH) (Some (created + 7 * day)) (Some 1)
    (Some created) (Some created) (Some false) None.

Definition no_filters : TaskFilters := mkTaskFilters None None None None.

(** * Properties *)

(** ** The model tests of [tests/test_tasks.py], [class TestTaskModel] *)

Example test_task_soft_delete (now : datetime) :
  let task := Task.soft_delete now test_task in
  Task.is_deleted task = Some true ∧ Task.deleted_at task ≠ None.
Proof. by split. Qed.

Example test_task_restore (now : datetime) :
  let task := Task.restore (Task.soft_delete now test_task) in
  Task.is_deleted task = Some false ∧ Task.deleted_at task = None.
Proof. by split. Qed.

Example test_task_is_overdue (now : datetime) :
  let task :=
    Task.init [Task.a_title (Some "Overdue Task");
               Task.a_due_date (Some (now - 1 * day));
               Task.a_owner_id (Some 1)] in
  Task.is_overdue now task = true
  ∧ Task.is_overdue now
      (Task.setattr task (Task.a_due_date (Some (now + 1 * day)))) = false.
Proof.
  unfold Task.is_overdue, day, microsecond; cbn.
  rewrite (bool_decide_true (None ≠ Some COMPLETED)) by done. split.
  - apply bool_decide_eq_true. lia.
  - apply bool_decide_eq_false. lia.
Qed.


(** ** The model: [soft_delete], [restore], [is_overdue] *)

Section Model.
Implicit Types (task : Task.t) (now due : datetime).

Lemma is_overdue_true now task :
  Task.is_overdue now task = true ↔
  ∃ due, Task.due_date task = Some due
         ∧ Task.status task ≠ Some COMPLETED ∧ due < now.
Proof.
  unfold Task.is_overdue. split.
  - destruct (Task.due_date task) as [due|]; [|done].
    case_bool_decide; [|done].
    intros Hlt%bool_decide_eq_true. exists due. repeat split; [done|lia].
  - intros (due & -> & Hst & Hlt).
    rewrite bool_decide_true by done. apply bool_decide_eq_true. lia.
Qed.

Lemma is_overdue_false now task :
  Task.is_overdue now task = false ↔
  Task.due_date task = None
  ∨ Task.status task = Some COMPLETED
  ∨ ∃ due, Task.due_date task = Some due ∧ now ≤ due.
Proof.
  rewrite <- not_true_iff_false, is_overdue_true. split.
  - intros Hno. destruct (Task.due_date task) as [due|]; [|by left].
    destruct (decide (Task.status task = Some COMPLETED)); [by auto|].
    right; right. exists due. split; [done|].
    destruct (decide (now ≤ due)); [done|].
    exfalso. apply Hno. exists due. repeat split; [done|lia].
  - intros [Hd | [Hs | (due & Hd & Hle)]] (due' & Hd' & Hst & Hlt);
      [congruence | done | ].
    rewrite Hd in Hd'. injection Hd' as <-. lia.
Qed.

Lemma soft_delete_known now task :
  Task.is_deleted task = Some true →
  Task.soft_delete now task = Task.setattr task (Task.a_deleted_at (Some now)).
Proof. destruct task; cbn. by intros ->. Qed.

Lemma restore_known task :
  Task.is_deleted task = Some false → Task.deleted_at task = None →
  Task.restore task = task.
Proof. destruct task; cbn. by intros -> ->. Qed.

Lemma deletion_consistent_soft_delete now task :
  deletion_consistent (Task.soft_delete now task).
Proof. by split. Qed.

Lemma deletion_consistent_restore task :
  deletion_consistent (Task.restore task).
Proof. by split. Qed.

Lemma deletion_consistent_calls cs task :
  deletion_consistent task → deletion_consistent (calls cs task).
Proof.
  revert task. induction cs as [|c cs IH]; intros task Hok; [done|].
  apply IH. destruct c;
    [apply deletion_consistent_soft_delete | apply deletion_consistent_restore].
Qed.

Lemma calls_snoc cs c task : calls (cs ++ [c]) task = call (calls cs task) c.
Proof. unfold calls. by rewrite foldl_snoc. Qed.

(** Assignments that do not name an attribute leave it as it was. *)
Lemma setattr_frame (self : Task.t) (a : Task.attr) :
  (Task.attr_name a ≠ "id" → Task.id (Task.setattr self a) = Task.id self)
  ∧ (Task.attr_name a ≠ "status" →
     Task.status (Task.setattr self a) = Task.status self)
  ∧ (Task.attr_name a ≠ "priority" →
     Task.priority (Task.setattr self a) = Task.priority self)
  ∧ (Task.attr_name a ≠ "owner_id" →
     Task.owner_id (Task.setattr self a) = Task.owner_id self)
  ∧ (Task.attr_name a ≠ "created_at" →
     Task.created_at (Task.setattr self a) = Task.created_at self)
  ∧ (Task.attr_name a ≠ "is_deleted" →
     Task.is_deleted (Task.setattr self a) = Task.is_deleted self)
  ∧ (Task.attr_name a ≠ "deleted_at" →
     Task.deleted_at (Task.setattr self a) = Task.deleted_at self).
Proof. destruct a; cbn; repeat split; intros; done. Qed.

Lemma assignments_frame (kwargs : list Task.attr) (self : Task.t) :
  let obj := foldl Task.setattr self kwargs in
  ("id" ∉ Task.attr_name <$> kwargs → Task.id obj = Task.id self)
  ∧ ("status" ∉ Task.attr_name <$> kwargs → Task.status obj = Task.status self)
  ∧ ("priority" ∉ Task.attr_name <$> kwargs →
     Task.priority obj = Task.priority self)
  ∧ ("owner_id" ∉ Task.attr_name <$> kwargs →
     Task.owner_id obj = Task.owner_id self)
  ∧ ("created_at" ∉ Task.attr_name <$> kwargs →
     Task.created_at obj = Task.created_at self)
  ∧ ("is_deleted" ∉ Task.attr_name <$> kwargs →
     Task.is_deleted obj = Task.is_deleted self)
  ∧ ("deleted_at" ∉ Task.attr_name <$> kwargs →
     Task.deleted_at obj = Task.deleted_at self).
Proof.
  revert self. induction kwargs as [|a kwargs IH]; intros self; cbn.
  { by repeat split. }
  destruct (IH (Task.setattr self a)) as (I1 & I2 & I3 & I4 & I5 & I6 & I7).
  destruct (setattr_frame self a) as (S1 & S2 & S3 & S4 & S5 & S6 & S7).
  repeat split; intros [Hne Hnot]%not_elem_of_cons.
  - rewrite I1, S1; done.
  - rewrite I2, S2; done.
  - rewrite I3, S3; done.
  - rewrite I4, S4; done.
  - rewrite I5, S5; done.
  - rewrite I6, S6; done.
  - rewrite I7, S7; done.
Qed.

End Model.

(** C1.  [is_overdue] is true exactly when the due date is set, the status is
    not COMPLETED and the due date is strictly before the current time.  So
    it is false when the due date is null, when it is not in the past, and
    when the status is COMPLETED; and a CANCELLED task with a past due date
    is overdue. *)
Theorem is_overdue_spec (now : datetime) (task : Task.t) :
  (Task.is_overdue now task = true ↔
     ∃ due, Task.due_date task = Some due
            ∧ Task.status task ≠ Some COMPLETED ∧ due < now)
  ∧ (Task.due_date task = None → Task.is_overdue now task = false)
  ∧ (∀ due, Task.due_date task = Some due → now ≤ due →
       Task.is_overdue now task = false)
  ∧ (Task.status task = Some COMPLETED → Task.is_overdue now task = false)
  ∧ (∀ due, Task.status task = Some CANCELLED →
       Task.due_date task = Some due → due < now →
       Task.is_overdue now task = true).
Proof.
  split; [apply is_overdue_true|]. repeat split.
  - intros Hd. apply is_overdue_false. by left.
  - intros due Hd Hle. apply is_overdue_false. right; right. by exists due.
  - intros Hs. apply is_overdue_false. right; by left.
  - intros due Hs Hd Hlt. apply is_overdue_true. exists due.
    repeat split; [done| |done]. by rewrite Hs.
Qed.

Example cancelled_task_overdue :
  Task.is_overdue (2 * day)
    (Task.init [Task.a_title (Some "Cancelled"); Task.a_status (Some CANCELLED);
                Task.a_due_date (Some (1 * day)); Task.a_owner_id (Some 1)])
  = true.
Proof. reflexivity. Qed.

Example completed_task_not_overdue :
  Task.is_overdue (2 * day)
    (Task.init [Task.a_title (Some "Done"); Task.a_status (Some COMPLETED);
                Task.a_due_date (Some (1 * day)); Task.a_owner_id (Some 1)])
  = false.
Proof. reflexivity. Qed.

(** C5.  [soft_delete()] sets [is_deleted] to true and [deleted_at] to the
    current time.  It is total, so it raises nothing; on a task that is
    already deleted it changes [deleted_at] only, and a second call at the
    same instant changes nothing. *)
Theorem soft_delete_spec (now : datetime) (task : Task.t) :
  Task.is_deleted (Task.soft_delete now task) = Some true
  ∧ Task.deleted_at (Task.soft_delete now task) = Some now
  ∧ (Task.is_deleted task = Some true →
     Task.soft_delete now task
     = Task.setattr task (Task.a_deleted_at (Some now)))
  ∧ (∀ later, Task.soft_delete later (Task.soft_delete now task)
              = Task.setattr (Task.soft_delete now task)
                  (Task.a_deleted_at (Some later)))
  ∧ Task.soft_delete now (Task.soft_delete now task)
    = Task.soft_delete now task.
Proof.
  repeat split. apply soft_delete_known.
Qed.

(** C6.  After any interleaving of [soft_delete()] and [restore()] calls that
    ends in [restore()], the task has [is_deleted = false] and
    [deleted_at = null]; [restore()] is idempotent, and on a task that is
    already active it changes nothing. *)
Theorem restore_last_spec (task : Task.t) (cs : list LifecycleCall) :
  let task' := calls (cs ++ [call_restore]) task in
  Task.is_deleted task' = Some false
  ∧ Task.deleted_at task' = None
  ∧ Task.restore (Task.restore task) = Task.restore task
  ∧ (Task.is_deleted task = Some false → Task.deleted_at task = None →
     Task.restore task = task).
Proof.
  cbv zeta. rewrite calls_snoc. repeat split. apply restore_known.
Qed.

Example restore_after_many_calls :
  let task :=
    calls [call_soft_delete 5; call_soft_delete 6; call_restore;
           call_restore; call_soft_delete 9; call_restore] test_task in
  Task.is_deleted task = Some false ∧ Task.deleted_at task = None.
Proof. by split. Qed.

(** C9.  [soft_delete()] and [restore()] assign [is_deleted] and
    [deleted_at] only: [id], [title], [description], [status], [priority],
    [due_date], [owner_id], [created_at] and [updated_at] are as before. *)
Theorem lifecycle_frame (now : datetime) (task : Task.t) :
  let unchanged (task' : Task.t) :=
    Task.id task' = Task.id task
    ∧ Task.title task' = Task.title task
    ∧ Task.description task' = Task.description task
    ∧ Task.status task' = Task.status task
    ∧ Task.priority task' = Task.priority task
    ∧ Task.due_date task' = Task.due_date task
    ∧ Task.owner_id task' = Task.owner_id task
    ∧ Task.created_at task' = Task.created_at task
    ∧ Task.updated_at task' = Task.updated_at task in
  unchanged (Task.soft_delete now task) ∧ unchanged (Task.restore task).
Proof. by repeat split. Qed.

(** C10.  A [Task] constructed in memory without [status], [priority] or
    [is_deleted] arguments has these three attributes unset; the defaults
    PENDING, MEDIUM and false are those of the columns and appear in the row
    that an INSERT writes. *)
Theorem defaults_apply_on_insert (kwargs : list Task.attr) :
  "status" ∉ Task.attr_name <$> kwargs →
  "priority" ∉ Task.attr_name <$> kwargs →
  "is_deleted" ∉ Task.attr_name <$> kwargs →
  let task := Task.init kwargs in
  (Task.status task = None ∧ Task.priority task = None
   ∧ Task.is_deleted task = None)
  ∧ ∀ now fresh,
      let row := Task.inserted now fresh task in
      Task.status row = Some PENDING ∧ Task.priority row = Some MEDIUM
      ∧ Task.is_deleted row = Some false.
Proof.
  intros Hs Hp Hd task.
  destruct (assignments_frame kwargs Task.blank) as (_ & Fs & Fp & _ & _ & Fd & _).
  specialize (Fs Hs). specialize (Fp Hp). specialize (Fd Hd).
  fold (Task.init kwargs) in Fs, Fp, Fd. fold task in Fs, Fp, Fd.
  cbn in Fs, Fp, Fd. split; [done|].
  intros now fresh row. subst row. cbn. by rewrite Fs, Fp, Fd.
Qed.

Lemma defaults_apply_on_insert_witness :
  (Task.status test_task = None ∧ Task.priority test_task = None
   ∧ Task.is_deleted test_task = None)
  ∧ ∀ now fresh,
      let row := Task.inserted now fresh test_task in
      Task.status row = Some PENDING ∧ Task.priority row = Some MEDIUM
      ∧ Task.is_deleted row = Some false.
Proof.
  apply (defaults_apply_on_insert
           [Task.a_title (Some "Test Task"); Task.a_description (Some "Test");
            Task.a_owner_id (Some 1)]);
    vm_compute; intros H; by repeat (inversion H as [|? ? ? H']; clear H; rename H' into H).
Defined.

(** ** Validation *)

Lemma TaskStatus_of_value_Some (raw : string) (m : TaskStatus) :
  TaskStatus_of_value raw = Some m ↔ TaskStatus_value m = raw.
Proof.
  unfold TaskStatus_of_value, TaskStatus_members. cbn [enum_by_value]. split.
  - repeat match goal with
           | |- context [String.eqb ?v raw] =>
               destruct (String.eqb_spec v raw) as [<-|?]; [by intros [= <-]|]
           end.
    done.
  - intros <-. by destruct m.
Qed.

Lemma TaskPriority_of_value_Some (raw : string) (m : TaskPriority) :
  TaskPriority_of_value raw = Some m ↔ TaskPriority_value m = raw.
Proof.
  unfold TaskPriority_of_value, TaskPriority_members. cbn [enum_by_value]. split.
  - repeat match goal with
           | |- context [String.eqb ?v raw] =>
               destruct (String.eqb_spec v raw) as [<-|?]; [by intros [= <-]|]
           end.
    done.
  - intros <-. by destruct m.
Qed.

Lemma TaskStatus_of_value_None (raw : string) :
  TaskStatus_of_value raw = None ↔ ∀ m, TaskStatus_value m ≠ raw.
Proof.
  split.
  - intros Hnone m Hm%TaskStatus_of_value_Some. congruence.
  - intros Hno. destruct (TaskStatus_of_value raw) as [m|] eqn:E; [|done].
    apply TaskStatus_of_value_Some in E. by destruct (Hno m).
Qed.

Lemma TaskPriority_of_value_None (raw : string) :
  TaskPriority_of_value raw = None ↔ ∀ m, TaskPriority_value m ≠ raw.
Proof.
  split.
  - intros Hnone m Hm%TaskPriority_of_value_Some. congruence.
  - intros Hno. destruct (TaskPriority_of_value raw) as [m|] eqn:E; [|done].
    apply TaskPriority_of_value_Some in E. by destruct (Hno m).
Qed.

Lemma validate_title_Ok (raw : option string) (s : string) :
  validate_title raw = Ok s ↔ raw = Some s ∧ s ≠ EmptyString.
Proof.
  unfold validate_title. destruct raw as [s'|]; [case_bool_decide|];
    (split; [intros ?|intros [? ?]]); by simplify_eq.
Qed.

Lemma validate_title_Fail (raw : option string) (e : Error) :
  validate_title raw = Fail e → e = ValidationError.
Proof.
  unfold validate_title. destruct raw; [case_bool_decide|]; congruence.
Qed.

Lemma validate_present_title_Fail (raw : option string) (e : Error) :
  validate_present_title raw = Fail e → e = ValidationError.
Proof.
  unfold validate_present_title. destruct raw as [s|]; [|done].
  destruct (validate_title (Some s)) eqn:Et; cbn; [done|].
  intros [= <-]. by apply validate_title_Fail in Et.
Qed.

Lemma validate_enum_Fail {A : Type} (of_value : string → option A)
    (raw : option string) (e : Error) :
  validate_enum of_value raw = Fail e → e = ValidationError.
Proof.
  unfold validate_enum. destruct raw as [r|]; [destruct (of_value r)|];
    congruence.
Qed.

Lemma validate_immutable_Fail {A : Type} `{EqDecision A}
    (current sent : option A) (e : Error) :
  validate_immutable current sent = Fail e → e = ValidationError.
Proof.
  unfold validate_immutable. destruct sent; [case_bool_decide|]; congruence.
Qed.

(** A step that can only fail with [ValidationError], followed by a
    continuation that never fails with [NotFound], never fails with
    [NotFound]. *)
Lemma bind_not_NotFound {A B : Type} (m : Result A) (k : A → Result B) :
  (∀ e, m = Fail e → e = ValidationError) →
  (∀ a, k a ≠ Fail NotFound) →
  (m ≫= k) ≠ Fail NotFound.
Proof.
  intros Hm Hk. destruct m as [a|e]; cbn; [apply Hk|].
  intros [= ->]. by specialize (Hm NotFound eq_refl).
Qed.

(** ** Lookups *)

Lemma get_task_Ok (owner task_id : Z) (db : gmap Z Task.t) (row : Task.t) :
  get_task owner task_id db = Ok row ↔
  db !! task_id = Some row ∧ Task.owner_id row = Some owner
  ∧ Task.is_deleted row = Some false.
Proof.
  unfold get_task, visible_to. destruct (db !! task_id) as [row'|];
    [repeat case_bool_decide; cbn|];
    (split; [intros ?|intros (? & ? & ?)]); by simplify_eq.
Qed.

Lemma get_task_Fail (owner task_id : Z) (db : gmap Z Task.t) (e : Error) :
  get_task owner task_id db = Fail e → e = NotFound.
Proof.
  unfold get_task. destruct (db !! task_id); [case_match|]; congruence.
Qed.

Lemma get_task_NotFound (owner task_id : Z) (db : gmap Z Task.t) :
  (∀ row, db !! task_id = Some row → Task.is_deleted row ≠ None) →
  get_task owner task_id db = Fail NotFound ↔ hidden_from owner task_id db.
Proof.
  intros Hnn. unfold get_task, visible_to, hidden_from.
  destruct (db !! task_id) as [row|] eqn:E; [|by split; [left|]].
  specialize (Hnn row eq_refl).
  repeat case_bool_decide; cbn.
  - split; [done|]. intros [?|[(r & [= <-] & ?)|(r & [= <-] & ?)]]; congruence.
  - split; [|done]. intros _. right; right. exists row. split; [done|].
    by destruct (Task.is_deleted row) as [[]|].
  - split; [|done]. intros _. right; left. by exists row.
  - split; [|done]. intros _. right; left. by exists row.
Qed.

Lemma update_task_NotFound (now : datetime) (owner task_id : Z) (p : TaskUpdate)
    (db : gmap Z Task.t) :
  update_task now owner task_id p db = Fail NotFound ↔
  get_task owner task_id db = Fail NotFound.
Proof.
  unfold update_task. destruct (get_task owner task_id db) as [task|e] eqn:E.
  - split; [|done]. cbn [mbind Result_bind]. intros Hfail. exfalso. revert Hfail.
    repeat (apply bind_not_NotFound;
            [ first [ apply validate_immutable_Fail | apply validate_enum_Fail
                    | apply validate_present_title_Fail ]
            | intros ? ]).
    done.
  - apply get_task_Fail in E as ->. done.
Qed.

Lemma delete_task_NotFound (now : datetime) (owner task_id : Z)
    (db : gmap Z Task.t) :
  delete_task now owner task_id db = Fail NotFound ↔
  get_task owner task_id db = Fail NotFound.
Proof.
  unfold delete_task. destruct (get_task owner task_id db) as [task|e] eqn:E.
  - done.
  - apply get_task_Fail in E as ->. done.
Qed.

(** ** Commands *)

Lemma created_row (now : datetime) (fresh owner : Z) (title : string)
    (description : option string) (status : option TaskStatus)
    (priority : option TaskPriority) (due_date : option datetime) :
  let task :=
    Task.init
      (Task.a_title (Some title)
       :: kwarg Task.a_description description
       ++ kwarg Task.a_status status
       ++ kwarg Task.a_priority priority
       ++ kwarg Task.a_due_date due_date
       ++ [Task.a_owner_id (Some owner); Task.a_updated_at (Some now)]) in
  Task.inserted now fresh task
  = Task.mk (Some fresh) (Some title) description
      (Some (default PENDING status)) (Some (default MEDIUM priority))
      due_date (Some owner) (Some now) (Some now) (Some false) None.
Proof. by destruct description, status, priority, due_date. Qed.

Lemma create_task_Ok (now : datetime) (owner : Z) (p : TaskCreate)
    (db : gmap Z Task.t) (r : gmap Z Task.t * Task.t) :
  create_task now owner p db = Ok r →
  ∃ title status priority,
    validate_title (c_title p) = Ok title
    ∧ validate_enum TaskStatus_of_value (c_status p) = Ok status
    ∧ validate_enum TaskPriority_of_value (c_priority p) = Ok priority
    ∧ r.2 = Task.mk (Some (fresh_id db)) (Some title) (c_description p)
              (Some (default PENDING status)) (Some (default MEDIUM priority))
              (c_due_date p) (Some owner) (Some now) (Some now) (Some false)
              None
    ∧ r.1 = <[fresh_id db := r.2]> db.
Proof.
  unfold create_task.
  destruct (validate_title (c_title p)) as [title|] eqn:Et; [|done].
  destruct (validate_enum TaskStatus_of_value (c_status p)) as [status|] eqn:Es;
    [|done].
  destruct (validate_enum TaskPriority_of_value (c_priority p))
    as [priority|] eqn:Ep; [|done].
  cbn [mbind Result_bind]. intros [= <-]. exists title, status, priority.
  unfold db_insert. cbv zeta. cbn [fst snd]. rewrite created_row. by cbn.
Qed.

Lemma apply_update_frame (title description : option string)
    (status : option TaskStatus) (priority : option TaskPriority)
    (due_date : option datetime) (task : Task.t) :
  let task' := apply_update title description status priority due_date task in
  Task.id task' = Task.id task
  ∧ Task.owner_id task' = Task.owner_id task
  ∧ Task.created_at task' = Task.created_at task
  ∧ Task.is_deleted task' = Task.is_deleted task
  ∧ Task.deleted_at task' = Task.deleted_at task.
Proof. by destruct title, description, status, priority, due_date. Qed.


(** ** Flushes *)

Lemma update_value_plain {A : Type} `{EqDecision A} (c : Column A)
    (now committed v : option A) :
  col_onupdate_now c = false → Task.update_value c now committed v = v.
Proof. unfold Task.update_value. intros ->. by case_decide. Qed.

(** Nothing pending, nothing written. *)
Lemma updated_unchanged (now : datetime) (committed : Task.t) :
  Task.updated now committed committed = committed.
Proof. unfold Task.updated. by rewrite decide_True. Qed.

(** With a change pending, the row is the object, and [updated_at] is the
    time of the statement unless it is itself among the changes. *)
Lemma updated_changed (now : datetime) (committed self : Task.t) :
  self ≠ committed →
  Task.updated now committed self
  = Task.setattr self
      (Task.a_updated_at
         (if decide (Task.updated_at self = Task.updated_at committed)
          then Some now else Task.updated_at self)).
Proof.
  intros Hne. unfold Task.updated. rewrite decide_False by done.
  rewrite !update_value_plain by done. unfold Task.update_value. cbn.
  by repeat case_decide.
Qed.

Lemma updated_frame (now : datetime) (committed self : Task.t) :
  let row := Task.updated now committed self in
  Task.id row = Task.id self
  ∧ Task.title row = Task.title self
  ∧ Task.description row = Task.description self
  ∧ Task.status row = Task.status self
  ∧ Task.priority row = Task.priority self
  ∧ Task.due_date row = Task.due_date self
  ∧ Task.owner_id row = Task.owner_id self
  ∧ Task.created_at row = Task.created_at self
  ∧ Task.is_deleted row = Task.is_deleted self
  ∧ Task.deleted_at row = Task.deleted_at self.
Proof.
  cbv zeta. destruct (decide (self = committed)) as [->|Hne];
    [by rewrite updated_unchanged | by rewrite updated_changed].
Qed.

Lemma updated_updated_at (now : datetime) (committed self : Task.t) :
  Task.updated_at (Task.updated now committed self)
  = if decide (self = committed) then Task.updated_at self
    else if decide (Task.updated_at self = Task.updated_at committed)
         then Some now else Task.updated_at self.
Proof.
  destruct (decide (self = committed)) as [->|Hne];
    [by rewrite updated_unchanged | by rewrite updated_changed].
Qed.

Lemma row_ok_updated (key : Z) (now : datetime) (committed self : Task.t) :
  row_ok key self → row_ok key (Task.updated now committed self).
Proof.
  destruct (updated_frame now committed self)
    as (Fid & _ & _ & _ & _ & _ & _ & _ & Fdel & Fat).
  unfold row_ok, deletion_consistent. by rewrite Fid, Fdel, Fat.
Qed.

(** ** Commands on a stored task *)

Lemma update_task_Ok (now : datetime) (owner task_id : Z) (p : TaskUpdate)
    (db : gmap Z Task.t) (r : gmap Z Task.t * Task.t) :
  update_task now owner task_id p db = Ok r →
  ∃ task title status priority,
    get_task owner task_id db = Ok task
    ∧ r.2 = Task.updated now task
              (apply_update title (u_description p) status priority
                 (u_due_date p) task)
    ∧ r.1 = <[task_id := r.2]> db.
Proof.
  unfold update_task.
  destruct (get_task owner task_id db) as [task|]; [|done]. cbn [mbind Result_bind].
  destruct (validate_immutable _ (u_id p)); [|done]. cbn [mbind Result_bind].
  destruct (validate_immutable _ (u_owner_id p)); [|done]. cbn [mbind Result_bind].
  destruct (validate_immutable _ (u_created_at p)); [|done].
  cbn [mbind Result_bind].
  destruct (validate_present_title (u_title p)) as [title|]; [|done].
  destruct (validate_enum TaskStatus_of_value _) as [status|]; [|done].
  destruct (validate_enum TaskPriority_of_value _) as [priority|]; [|done].
  cbn [mbind Result_bind]. intros [= <-]. by exists task, title, status, priority.
Qed.

Lemma delete_task_Ok (now : datetime) (owner task_id : Z) (db db' : gmap Z Task.t) :
  delete_task now owner task_id db = Ok db' →
  ∃ task,
    get_task owner task_id db = Ok task
    ∧ db' = <[task_id := Task.updated now task (Task.soft_delete now task)]> db.
Proof.
  unfold delete_task. destruct (get_task owner task_id db) as [task|]; [|done].
  cbn. intros [= <-]. by exists task.
Qed.

Lemma restore_task_Ok (now : datetime) (owner task_id : Z) (db : gmap Z Task.t)
    (r : gmap Z Task.t * Task.t) :
  restore_task now owner task_id db = Ok r →
  ∃ task,
    db !! task_id = Some task ∧ Task.owner_id task = Some owner
    ∧ r.2 = Task.updated now task (Task.restore task)
    ∧ r.1 = <[task_id := r.2]> db.
Proof.
  unfold restore_task. destruct (db !! task_id) as [task|]; [|done].
  case_bool_decide; [|done]. intros [= <-]. by exists task.
Qed.

Lemma step_rows_ok (db : gmap Z Task.t) (c : Command) :
  map_Forall row_ok db → map_Forall row_ok (step db c).
Proof.
  intros Hdb. destruct c as [now owner p|now owner k p|now owner k|now owner k];
    cbn [step].
  - destruct (create_task now owner p db) as [r|] eqn:E; [|done].
    apply create_task_Ok in E
      as (title & status & priority & _ & _ & _ & Hrow & ->).
    apply map_Forall_insert_2; [|done]. rewrite Hrow. by repeat split.
  - destruct (update_task now owner k p db) as [r|] eqn:E; [|done].
    apply update_task_Ok in E as (task & title & status & priority & Hget & Hrow & ->).
    apply get_task_Ok in Hget as (Hin & _ & _).
    destruct (Hdb k task Hin) as (Hid & Hnn & Hcons).
    destruct (apply_update_frame title (u_description p) status priority
                (u_due_date p) task) as (Fid & _ & _ & Fdel & Fat).
    apply map_Forall_insert_2; [|done]. rewrite Hrow. apply row_ok_updated.
    unfold row_ok, deletion_consistent. by rewrite Fid, Fdel, Fat.
  - destruct (delete_task now owner k db) as [db'|] eqn:E; [|done].
    apply delete_task_Ok in E as (task & Hget & ->).
    apply get_task_Ok in Hget as (Hin & _ & _).
    destruct (Hdb k task Hin) as (Hid & _ & _).
    apply map_Forall_insert_2; [|done]. apply row_ok_updated. by repeat split.
  - destruct (restore_task now owner k db) as [r|] eqn:E; [|done].
    apply restore_task_Ok in E as (task & Hin & _ & Hrow & ->).
    destruct (Hdb k task Hin) as (Hid & _ & _).
    apply map_Forall_insert_2; [|done]. rewrite Hrow. apply row_ok_updated.
    by repeat split.
Qed.

Lemma run_rows_ok (history : list Command) : map_Forall row_ok (run history).
Proof.
  unfold run. induction history as [|c history IH] using rev_ind.
  - apply map_Forall_empty.
  - rewrite foldl_snoc. by apply step_rows_ok.
Qed.

Lemma create_task_Fail (now : datetime) (owner : Z) (p : TaskCreate)
    (db : gmap Z Task.t) (e : Error) :
  create_task now owner p db = Fail e → e = ValidationError.
Proof.
  unfold create_task.
  destruct (validate_title (c_title p)) eqn:Et; cbn [mbind Result_bind];
    [|intros [= <-]; by apply validate_title_Fail in Et].
  destruct (validate_enum TaskStatus_of_value (c_status p)) eqn:Es;
    cbn [mbind Result_bind];
    [|intros [= <-]; by apply validate_enum_Fail in Es].
  destruct (validate_enum TaskPriority_of_value (c_priority p)) eqn:Ep;
    cbn [mbind Result_bind];
    [done|intros [= <-]; by apply validate_enum_Fail in Ep].
Qed.

(** A recognized value, or none, passes the validation of an enumeration
    field and is decoded to its member. *)
Lemma validate_enum_recognized {A : Type} (value_of : A → string)
    (of_value : string → option A) (raw : option string) :
  (∀ r m, of_value r = Some m ↔ value_of m = r) →
  (∀ r, raw = Some r → ∃ m, value_of m = r) →
  ∃ v, validate_enum of_value raw = Ok v
       ∧ (raw = None → v = None)
       ∧ (∀ m, raw = Some (value_of m) → v = Some m).
Proof.
  intros Hspec Hrec. unfold validate_enum. destruct raw as [r|].
  - destruct (Hrec r eq_refl) as [m Hm]. apply Hspec in Hm as Hof. rewrite Hof.
    exists (Some m). repeat split; [done|]. intros m' [= ->].
    pose proof (proj2 (Hspec (value_of m') m') eq_refl) as Hof'. congruence.
  - exists None. repeat split. done.
Qed.

(** C2.  [deleted_at] is non-null if and only if [is_deleted] is true, for
    every row of the task table after any history of create, update, delete
    and restore commands, and for every task constructed in memory without
    deletion arguments, across any [soft_delete()] and [restore()] calls. *)
Theorem deletion_flag_matches_timestamp :
  (∀ (history : list Command) (task_id : Z) (row : Task.t),
     run history !! task_id = Some row →
     Task.deleted_at row ≠ None ↔ Task.is_deleted row = Some true)
  ∧ (∀ now task, deletion_consistent (Task.soft_delete now task))
  ∧ (∀ task, deletion_consistent (Task.restore task))
  ∧ (∀ cs task, deletion_consistent task → deletion_consistent (calls cs task))
  ∧ (∀ kwargs cs,
       "is_deleted" ∉ Task.attr_name <$> kwargs →
       "deleted_at" ∉ Task.attr_name <$> kwargs →
       deletion_consistent (calls cs (Task.init kwargs))).
Proof.
  split; [|split; [|split; [|split]]].
  - intros history task_id row Hin.
    by destruct (run_rows_ok history task_id row Hin) as (_ & _ & Hcons).
  - apply deletion_consistent_soft_delete.
  - apply deletion_consistent_restore.
  - apply deletion_consistent_calls.
  - intros kwargs cs Hd Ha. apply deletion_consistent_calls.
    destruct (assignments_frame kwargs Task.blank) as (_ & _ & _ & _ & _ & Fd & Fa).
    unfold deletion_consistent, Task.init. by rewrite (Fd Hd), (Fa Ha).
Qed.

(** C3.  In every state of the task table, each of [get_task],
    [update_task] and [delete_task] fails with [NotFound] exactly when no
    task has the id, or the task belongs to another owner, or the task is
    soft-deleted; the failure is the one value [NotFound] in the three cases,
    and the lookup has no other failure. *)
Theorem not_found_collapse (history : list Command) (owner task_id : Z) :
  let db := run history in
  (get_task owner task_id db = Fail NotFound ↔ hidden_from owner task_id db)
  ∧ (∀ now p, update_task now owner task_id p db = Fail NotFound
              ↔ hidden_from owner task_id db)
  ∧ (∀ now, delete_task now owner task_id db = Fail NotFound
            ↔ hidden_from owner task_id db)
  ∧ (∀ e, get_task owner task_id db = Fail e → e = NotFound)
  ∧ (∀ now e, delete_task now owner task_id db = Fail e → e = NotFound).
Proof.
  intros db.
  assert (Hget : get_task owner task_id db = Fail NotFound
                 ↔ hidden_from owner task_id db).
  { apply get_task_NotFound. intros row Hin.
    by destruct (run_rows_ok history task_id row Hin) as (_ & Hnn & _). }
  split; [done|]. split; [|split; [|split]].
  - intros now p. by rewrite update_task_NotFound.
  - intros now. by rewrite delete_task_NotFound.
  - apply get_task_Fail.
  - intros now e. unfold delete_task.
    destruct (get_task owner task_id db) as [task|e'] eqn:E; [done|].
    cbn. intros [= <-]. by apply get_task_Fail in E.
Qed.

(** C4.  Every task that [list_tasks] returns has the given [owner_id] and
    [is_deleted = false], whatever the filters and the page. *)
Theorem list_tasks_owner_scoped (MAX_PAGE_SIZE owner : Z) (f : TaskFilters)
    (p : Pagination) (db : gmap Z Task.t) (rows : list Task.t) :
  list_tasks MAX_PAGE_SIZE owner f p db = Ok rows →
  Forall (λ row, Task.owner_id row = Some owner
                 ∧ Task.is_deleted row = Some false) rows.
Proof.
  unfold list_tasks. case_bool_decide; [|done]. intros [= <-].
  apply Forall_take, Forall_drop. rewrite merge_sort_Permutation.
  apply Forall_forall. intros row [_ [Hvis _]%list_elem_of_filter]%list_elem_of_filter.
  unfold visible_to in Hvis. apply andb_true_iff in Hvis as [Ho Hd].
  by apply bool_decide_eq_true in Ho, Hd.
Qed.

Lemma list_tasks_owner_scoped_witness :
  Forall (λ row, Task.owner_id row = Some 1 ∧ Task.is_deleted row = Some false)
    [sample_row 4 14; sample_row 1 10].
Proof.
  apply (list_tasks_owner_scoped 100 1 no_filters (mkPagination 0 10)
           (run sample_history)).
  vm_compute. reflexivity.
Defined.

Example hidden_ids_not_found :
  let db := run sample_history in
  get_task 1 9 db = Fail NotFound
  ∧ get_task 1 2 db = Fail NotFound
  ∧ get_task 1 3 db = Fail NotFound
  ∧ delete_task 20 1 9 db = Fail NotFound
  ∧ delete_task 20 1 2 db = Fail NotFound
  ∧ delete_task 20 1 3 db = Fail NotFound
  ∧ get_task 1 4 db = Ok (sample_row 4 14).
Proof. vm_compute. by repeat split. Qed.

(** C7.  [create_task] fails with [ValidationError] when the title is absent
    or empty, and when [status] or [priority] is not the value of a member of
    its enumeration.  Otherwise it succeeds: an absent [status] becomes
    PENDING, an absent [priority] becomes MEDIUM, a recognized value becomes
    its member, and the task has [is_deleted = false]. *)
Theorem create_task_spec (now : datetime) (owner : Z) (p : TaskCreate)
    (db : gmap Z Task.t) :
  (c_title p = None ∨ c_title p = Some EmptyString →
   create_task now owner p db = Fail ValidationError)
  ∧ (∀ raw, c_status p = Some raw → (∀ m, TaskStatus_value m ≠ raw) →
       create_task now owner p db = Fail ValidationError)
  ∧ (∀ raw, c_priority p = Some raw → (∀ m, TaskPriority_value m ≠ raw) →
       create_task now owner p db = Fail ValidationError)
  ∧ (∀ title, c_title p = Some title → title ≠ EmptyString →
       (∀ raw, c_status p = Some raw → ∃ m, TaskStatus_value m = raw) →
       (∀ raw, c_priority p = Some raw → ∃ m, TaskPriority_value m = raw) →
       ∃ db' task,
         create_task now owner p db = Ok (db', task)
         ∧ (c_status p = None → Task.status task = Some PENDING)
         ∧ (c_priority p = None → Task.priority task = Some MEDIUM)
         ∧ (∀ m, c_status p = Some (TaskStatus_value m) →
              Task.status task = Some m)
         ∧ (∀ m, c_priority p = Some (TaskPriority_value m) →
              Task.priority task = Some m)
         ∧ Task.is_deleted task = Some false
         ∧ Task.title task = Some title
         ∧ Task.owner_id task = Some owner
         ∧ db' !! fresh_id db = Some task).
Proof.
  assert (Hno : (∀ r, create_task now owner p db ≠ Ok r) →
                create_task now owner p db = Fail ValidationError).
  { intros Hne. destruct (create_task now owner p db) as [r|e] eqn:E;
      [by destruct (Hne r)|]. by apply create_task_Fail in E as ->. }
  split; [|split; [|split]].
  - intros Ht. apply Hno. intros r (title & ? & ? & Et & _)%create_task_Ok.
    apply validate_title_Ok in Et as [Et Hne]. destruct Ht; congruence.
  - intros raw Hs Hun. apply Hno.
    intros r (? & status & ? & _ & Es & _)%create_task_Ok.
    apply TaskStatus_of_value_None in Hun.
    unfold validate_enum in Es. by rewrite Hs, Hun in Es.
  - intros raw Hp Hun. apply Hno.
    intros r (? & ? & priority & _ & _ & Ep & _)%create_task_Ok.
    apply TaskPriority_of_value_None in Hun.
    unfold validate_enum in Ep. by rewrite Hp, Hun in Ep.
  - intros title Ht Hne Hs Hp.
    destruct (validate_enum_recognized TaskStatus_value TaskStatus_of_value
                (c_status p) TaskStatus_of_value_Some Hs)
      as (status & Es & Hs0 & Hs1).
    destruct (validate_enum_recognized TaskPriority_value TaskPriority_of_value
                (c_priority p) TaskPriority_of_value_Some Hp)
      as (priority & Ep & Hp0 & Hp1).
    assert (Et : validate_title (c_title p) = Ok title)
      by by apply validate_title_Ok.
    eexists _, _. split.
    { unfold create_task. rewrite Et, Es, Ep. cbn [mbind Result_bind].
      unfold db_insert. cbv zeta. rewrite created_row. cbn [Task.id default].
      reflexivity. }
    cbn. repeat split.
    + intros Hnone. by rewrite (Hs0 Hnone).
    + intros Hnone. by rewrite (Hp0 Hnone).
    + intros m Hm. by rewrite (Hs1 m Hm).
    + intros m Hm. by rewrite (Hp1 m Hm).
    + apply lookup_insert_eq.
Qed.

Example test_create_task (now : datetime) :
  ∃ db' task,
    create_task now 1 (sample_create now) ∅ = Ok (db', task)
    ∧ Task.status task = Some PENDING ∧ Task.priority task = Some HIGH
    ∧ Task.is_deleted task = Some false.
Proof. by eexists _, _. Qed.

Example test_create_task_missing_title (now : datetime) :
  create_task now 1 (mkTaskCreate None (Some "No title provided") None None None) ∅
  = Fail ValidationError.
Proof. reflexivity. Qed.

Example test_invalid_priority_value (now : datetime) :
  create_task now 1
    (mkTaskCreate (Some "Test Task") None None (Some "invalid_priority") None) ∅
  = Fail ValidationError.
Proof. reflexivity. Qed.



(** ** The autoincrement key is new *)

Lemma max_key_bound (db : gmap Z Task.t) (key : Z) (row : Task.t) :
  db !! key = Some row → key ≤ max_key db.
Proof.
  intros Hin%elem_of_map_to_list. unfold max_key.
  apply (list_elem_of_fmap_2 fst) in Hin. cbn in Hin.
  induction ((map_to_list db).*1) as [|k ks IH]; [by apply elem_of_nil in Hin|].
  apply elem_of_cons in Hin as [<-|Hin]; cbn; [lia|].
  specialize (IH Hin). lia.
Qed.

Lemma fresh_id_unused (db : gmap Z Task.t) : db !! fresh_id db = None.
Proof.
  destruct (db !! fresh_id db) as [row|] eqn:E; [|done].
  apply max_key_bound in E. unfold fresh_id in E. lia.
Qed.

Lemma create_task_keeps_rows (now : datetime) (owner key : Z) (p : TaskCreate)
    (db : gmap Z Task.t) (r : gmap Z Task.t * Task.t) (row : Task.t) :
  create_task now owner p db = Ok r → db !! key = Some row →
  r.1 !! key = Some row.
Proof.
  intros (? & ? & ? & _ & _ & _ & _ & ->)%create_task_Ok Hin.
  rewrite lookup_insert_ne; [done|]. intros <-.
  by rewrite fresh_id_unused in Hin.
Qed.

(** * Further properties of the model *)

(** ** The enumerations *)

(** X1.  Looking a [TaskStatus] up by value inverts [.value]: the value of a
    member finds that member, a string that finds a member is its value, two
    members never share a value, and the lookup fails exactly on the strings
    that are the value of no member. *)
Theorem TaskStatus_value_round_trip :
  (∀ m, TaskStatus_of_value (TaskStatus_value m) = Some m)
  ∧ (∀ raw m, TaskStatus_of_value raw = Some m → TaskStatus_value m = raw)
  ∧ (∀ m1 m2, TaskStatus_value m1 = TaskStatus_value m2 → m1 = m2)
  ∧ (∀ raw, TaskStatus_of_value raw = None ↔ ∀ m, TaskStatus_value m ≠ raw).
Proof.
  assert (Hback : ∀ m, TaskStatus_of_value (TaskStatus_value m) = Some m)
    by (intros m; by apply TaskStatus_of_value_Some).
  split; [done|]. split; [|split].
  - intros raw m. apply TaskStatus_of_value_Some.
  - intros m1 m2 Heq. pose proof (Hback m1) as H1. rewrite Heq, Hback in H1.
    by injection H1.
  - apply TaskStatus_of_value_None.
Qed.

(** X2.  Looking a [TaskPriority] up by value inverts [.value], in the same
    four senses; and no string is the value of both a status and a
    priority. *)
Theorem TaskPriority_value_round_trip :
  (∀ m, TaskPriority_of_value (TaskPriority_value m) = Some m)
  ∧ (∀ raw m, TaskPriority_of_value raw = Some m → TaskPriority_value m = raw)
  ∧ (∀ m1 m2, TaskPriority_value m1 = TaskPriority_value m2 → m1 = m2)
  ∧ (∀ raw, TaskPriority_of_value raw = None ↔ ∀ m, TaskPriority_value m ≠ raw)
  ∧ (∀ raw s, TaskStatus_of_value raw = Some s → TaskPriority_of_value raw = None).
Proof.
  assert (Hback : ∀ m, TaskPriority_of_value (TaskPriority_value m) = Some m)
    by (intros m; by apply TaskPriority_of_value_Some).
  split; [done|]. split; [|split; [|split]].
  - intros raw m. apply TaskPriority_of_value_Some.
  - intros m1 m2 Heq. pose proof (Hback m1) as H1. rewrite Heq, Hback in H1.
    by injection H1.
  - apply TaskPriority_of_value_None.
  - intros raw s <-%TaskStatus_of_value_Some. by destruct s.
Qed.

(** ** Calls of [soft_delete] and [restore] *)

Section Lifecycle.
Implicit Types (task : Task.t) (c : LifecycleCall) (cs : list LifecycleCall).

Lemma call_absorbs task c1 c2 : call (call task c1) c2 = call task c2.
Proof. by destruct c1, c2. Qed.

Lemma calls_cons cs c task : calls (c :: cs) task = calls cs (call task c).
Proof. done. Qed.

Lemma is_overdue_call now task c :
  Task.is_overdue now (call task c) = Task.is_overdue now task.
Proof. by destruct c. Qed.

End Lifecycle.

(** X3.  The last call wins: after any calls of [soft_delete()] and
    [restore()], the task is what the last call alone makes of the original
    task; the earlier calls leave no trace. *)
Theorem last_call_wins (cs : list LifecycleCall) (c : LifecycleCall)
    (task : Task.t) :
  calls (cs ++ [c]) task = call task c.
Proof.
  rewrite calls_snoc. revert task.
  induction cs as [|c1 cs IH]; intros task; [done|].
  by rewrite calls_cons, IH, call_absorbs.
Qed.

(** X4.  [restore()] after [soft_delete()] gives back the very same task
    exactly when the task was active, with [is_deleted] false and
    [deleted_at] null; on an object whose [is_deleted] was never set it
    leaves [is_deleted = false] instead. *)
Theorem restore_undoes_soft_delete (now : datetime) (task : Task.t) :
  (Task.restore (Task.soft_delete now task) = task
   ↔ Task.is_deleted task = Some false ∧ Task.deleted_at task = None)
  ∧ Task.is_deleted (Task.restore (Task.soft_delete now task)) = Some false.
Proof.
  split; [|done]. destruct task as [i t d s p du o c u del dat]. cbn. split.
  - by intros [= <- <-].
  - by intros [-> ->].
Qed.

(** X5.  [is_overdue] does not look at the deletion state: no calls of
    [soft_delete()] and [restore()] change it, so a soft-deleted task with a
    past due date is still overdue. *)
Theorem is_overdue_ignores_deletion (now : datetime)
    (cs : list LifecycleCall) (task : Task.t) :
  Task.is_overdue now (calls cs task) = Task.is_overdue now task.
Proof.
  revert task. induction cs as [|c cs IH]; intros task; [done|].
  by rewrite calls_cons, IH, is_overdue_call.
Qed.

(** X6.  Being overdue is monotone in time: a task that is overdue now is
    overdue at every later time, and one that is not overdue later was not
    overdue before. *)
Theorem is_overdue_monotone (now later : datetime) (task : Task.t) :
  now ≤ later →
  (Task.is_overdue now task = true → Task.is_overdue later task = true)
  ∧ (Task.is_overdue later task = false → Task.is_overdue now task = false).
Proof.
  intros Hle.
  assert (Hup : Task.is_overdue now task = true →
                Task.is_overdue later task = true).
  { intros (due & Hd & Hs & Hlt)%is_overdue_true. apply is_overdue_true.
    exists due. repeat split; [done..|lia]. }
  split; [done|]. intros Hlater.
  destruct (Task.is_overdue now task) eqn:E; [|done].
  rewrite (Hup eq_refl) in Hlater. done.
Qed.

Lemma is_overdue_monotone_witness :
  let task :=
    Task.init [Task.a_title (Some "Overdue Task");
               Task.a_due_date (Some (1 * day)); Task.a_owner_id (Some 1)] in
  (Task.is_overdue (2 * day) task = true → Task.is_overdue (3 * day) task = true)
  ∧ (Task.is_overdue (3 * day) task = false
     → Task.is_overdue (2 * day) task = false).
Proof.
  apply (is_overdue_monotone (2 * day) (3 * day)). unfold day, microsecond. lia.
Defined.

(** ** Writing the object to the table *)

(** X7.  Writing a task does not change whether it is overdue: the row an
    INSERT stores, defaults filled in, and the row a flush leaves, whatever
    the session had loaded, are overdue exactly when the object was. *)
Theorem is_overdue_unchanged_by_writes (now written fresh : Z)
    (committed task : Task.t) :
  Task.is_overdue now (Task.inserted written fresh task)
  = Task.is_overdue now task
  ∧ Task.is_overdue now (Task.updated written committed task)
    = Task.is_overdue now task.
Proof.
  split.
  - destruct task as [i t d s p du o c u del dat]. unfold Task.is_overdue. cbn.
    destruct du as [due|]; [|done]. by destruct s as [[]|].
  - destruct (updated_frame written committed task)
      as (_ & _ & _ & Fs & _ & Fd & _).
    unfold Task.is_overdue. by rewrite Fs, Fd.
Qed.

(** X8.  An INSERT never replaces a value the object has: each of the eleven
    attributes that is set on the object is stored as it is, and the
    defaults reach only the attributes that are unset. *)
Theorem insert_keeps_given_values (now fresh : Z) (task : Task.t) :
  let row := Task.inserted now fresh task in
  (∀ v, Task.id task = Some v → Task.id row = Some v)
  ∧ (∀ v, Task.title task = Some v → Task.title row = Some v)
  ∧ (∀ v, Task.description task = Some v → Task.description row = Some v)
  ∧ (∀ v, Task.status task = Some v → Task.status row = Some v)
  ∧ (∀ v, Task.priority task = Some v → Task.priority row = Some v)
  ∧ (∀ v, Task.due_date task = Some v → Task.due_date row = Some v)
  ∧ (∀ v, Task.owner_id task = Some v → Task.owner_id row = Some v)
  ∧ (∀ v, Task.created_at task = Some v → Task.created_at row = Some v)
  ∧ (∀ v, Task.updated_at task = Some v → Task.updated_at row = Some v)
  ∧ (∀ v, Task.is_deleted task = Some v → Task.is_deleted row = Some v)
  ∧ (∀ v, Task.deleted_at task = Some v → Task.deleted_at row = Some v).
Proof.
  destruct task as [i t d s p du o c u del dat]. cbn.
  repeat split; by intros v ->.
Qed.

(** X9.  A task inserted without timestamps gets [created_at] from the
    database and no [updated_at]: [onupdate] does not act on INSERT.  The
    first UPDATE, sent for any change that leaves the two timestamps alone,
    sets [updated_at] and leaves [created_at] as it is. *)
Theorem insert_timestamps (now later fresh : Z) (task changed : Task.t) :
  Task.created_at task = None → Task.updated_at task = None →
  let row := Task.inserted now fresh task in
  changed ≠ row →
  Task.created_at changed = Task.created_at row →
  Task.updated_at changed = Task.updated_at row →
  Task.created_at row = Some now
  ∧ Task.updated_at row = None
  ∧ Task.created_at (Task.updated later row changed) = Some now
  ∧ Task.updated_at (Task.updated later row changed) = Some later.
Proof.
  intros Hc Hu row Hne Hsame_c Hsame_u.
  assert (Hrow_c : Task.created_at row = Some now).
  { subst row. destruct task. cbn in *. by subst. }
  assert (Hrow_u : Task.updated_at row = None).
  { subst row. destruct task. cbn in *. by subst. }
  destruct (updated_frame later row changed)
    as (_ & _ & _ & _ & _ & _ & _ & Fc & _).
  repeat split; [done..| |].
  - by rewrite Fc, Hsame_c.
  - rewrite updated_updated_at. by rewrite decide_False, decide_True.
Qed.

Lemma insert_timestamps_witness :
  let row := Task.inserted 10 1 test_task in
  let changed := Task.soft_delete 15 row in
  Task.created_at row = Some 10
  ∧ Task.updated_at row = None
  ∧ Task.created_at (Task.updated 20 row changed) = Some 10
  ∧ Task.updated_at (Task.updated 20 row changed) = Some 20.
Proof.
  apply (insert_timestamps 10 20 1 test_task
           (Task.soft_delete 15 (Task.inserted 10 1 test_task)));
    [reflexivity | reflexivity | by vm_compute | reflexivity | reflexivity].
Defined.

(** X10.  Writing keeps the deletion flag and its timestamp consistent: if
    [deleted_at] is set exactly when [is_deleted] is true on the object, the
    same holds of the row an INSERT stores and of the row a flush leaves,
    whatever the session had loaded. *)
Theorem writes_keep_deletion_consistent (now fresh : Z) (task : Task.t) :
  deletion_consistent task →
  deletion_consistent (Task.inserted now fresh task)
  ∧ ∀ committed, deletion_consistent (Task.updated now committed task).
Proof.
  intros Hcons. split.
  - destruct task as [i t d s p du o c u del dat].
    unfold deletion_consistent in *. cbn in *.
    destruct del as [b|]; [by destruct dat|]. destruct dat as [at_|]; [|done].
    assert (@None bool = Some true) by (by apply Hcons). done.
  - intros committed.
    destruct (updated_frame now committed task)
      as (_ & _ & _ & _ & _ & _ & _ & _ & Fdel & Fat).
    unfold deletion_consistent in *. by rewrite Fdel, Fat.
Qed.

Lemma writes_keep_deletion_consistent_witness :
  deletion_consistent (Task.inserted 20 1 (Task.soft_delete 10 test_task))
  ∧ ∀ committed,
      deletion_consistent
        (Task.updated 20 committed (Task.soft_delete 10 test_task)).
Proof.
  apply (writes_keep_deletion_consistent 20 1 (Task.soft_delete 10 test_task)).
  apply deletion_consistent_soft_delete.
Defined.

(** ** The life of a persistent object *)

Section Events.
Implicit Types (committed task : Task.t) (e : ObjectEvent)
  (es : list ObjectEvent).

Lemma events_from_cons committed task e es :
  events_from committed task (e :: es)
  = events_from (event (committed, task) e).1 (event (committed, task) e).2 es.
Proof. unfold events_from. cbn [foldl]. by destruct (event (committed, task) e). Qed.

(** What no event changes. *)
Lemma event_frame committed task e :
  let task' := (event (committed, task) e).2 in
  Task.id task' = Task.id task
  ∧ Task.title task' = Task.title task
  ∧ Task.description task' = Task.description task
  ∧ Task.status task' = Task.status task
  ∧ Task.priority task' = Task.priority task
  ∧ Task.due_date task' = Task.due_date task
  ∧ Task.owner_id task' = Task.owner_id task
  ∧ Task.created_at task' = Task.created_at task.
Proof.
  destruct e as [[]|now]; cbn; [done..|].
  destruct (updated_frame now committed task)
    as (F1 & F2 & F3 & F4 & F5 & F6 & F7 & F8 & _).
  by repeat split.
Qed.

Lemma events_from_frame es committed task :
  let task' := events_from committed task es in
  Task.id task' = Task.id task
  ∧ Task.title task' = Task.title task
  ∧ Task.description task' = Task.description task
  ∧ Task.status task' = Task.status task
  ∧ Task.priority task' = Task.priority task
  ∧ Task.due_date task' = Task.due_date task
  ∧ Task.owner_id task' = Task.owner_id task
  ∧ Task.created_at task' = Task.created_at task.
Proof.
  revert committed task. induction es as [|e es IH]; intros committed task;
    [done|].
  cbv zeta. rewrite events_from_cons.
  destruct (IH (event (committed, task) e).1 (event (committed, task) e).2)
    as (I1 & I2 & I3 & I4 & I5 & I6 & I7 & I8).
  destruct (event_frame committed task e)
    as (E1 & E2 & E3 & E4 & E5 & E6 & E7 & E8).
  repeat split; congruence.
Qed.



Lemma events_from_is_deleted_set es committed task :
  is_Some (Task.is_deleted task) →
  is_Some (Task.is_deleted (events_from committed task es)).
Proof.
  revert committed task. induction es as [|e es IH]; intros committed task Hset;
    [done|].
  rewrite events_from_cons. apply IH. destruct e as [[]|now]; cbn; [done..|].
  destruct (updated_frame now committed task)
    as (_ & _ & _ & _ & _ & _ & _ & _ & -> & _). done.
Qed.

End Events.


(** X12.  A stored task is complete: from the INSERT on, through any method
    calls and UPDATEs, the row has an [id], a [status], a [priority], a
    deletion flag and a [created_at]; none of them is ever null. *)
Theorem stored_task_is_complete (now fresh : Z) (task : Task.t)
    (es : list ObjectEvent) :
  let row := events es (Task.inserted now fresh task) in
  is_Some (Task.id row) ∧ is_Some (Task.status row)
  ∧ is_Some (Task.priority row) ∧ is_Some (Task.is_deleted row)
  ∧ is_Some (Task.created_at row).
Proof.
  cbv zeta. unfold events.
  destruct (events_from_frame es (Task.inserted now fresh task)
              (Task.inserted now fresh task))
    as (-> & _ & _ & -> & -> & _ & _ & ->).
  destruct task as [i t d s p du o c u del dat]. cbn.
  repeat split.
  - by destruct i.
  - by destruct s.
  - by destruct p.
  - apply events_from_is_deleted_set. cbn. by destruct del.
  - by destruct c.
Qed.

(** ** The constructor *)

Lemma reads_setattr (self : Task.t) (a : Task.attr) :
  reads (Task.setattr self a) a.
Proof. by destruct a. Qed.

Lemma reads_setattr_other (self : Task.t) (a b : Task.attr) :
  Task.attr_name a ≠ Task.attr_name b →
  reads self a → reads (Task.setattr self b) a.
Proof. by destruct a, b. Qed.

(** X13.  The constructor stores what it is given: with each keyword at most
    once, every attribute named among the arguments reads back as the value
    passed for it. *)
Theorem constructor_reads_back (kwargs : list Task.attr) (a : Task.attr) :
  NoDup (Task.attr_name <$> kwargs) → a ∈ kwargs → reads (Task.init kwargs) a.
Proof.
  unfold Task.init. induction kwargs as [|b kwargs IH] using rev_ind;
    intros Hnd Hin; [by apply elem_of_nil in Hin|].
  rewrite foldl_snoc. rewrite fmap_app in Hnd.
  apply NoDup_app in Hnd as (Hnd & Hfresh & _).
  apply elem_of_app in Hin as [Hin|Hin].
  - apply reads_setattr_other; [|by apply IH].
    intros Heq. apply (Hfresh (Task.attr_name a)).
    + by apply list_elem_of_fmap_2.
    + rewrite Heq. cbn. apply list_elem_of_here.
  - apply list_elem_of_singleton in Hin as ->. apply reads_setattr.
Qed.

Lemma constructor_reads_back_witness :
  Task.due_date
    (Task.init [Task.a_title (Some "Overdue Task");
                Task.a_due_date (Some (1 * day)); Task.a_owner_id (Some 1)])
  = Some (1 * day).
Proof.
  apply (constructor_reads_back
           [Task.a_title (Some "Overdue Task");
            Task.a_due_date (Some (1 * day)); Task.a_owner_id (Some 1)]
           (Task.a_due_date (Some (1 * day)))).
  - by apply (bool_decide_unpack _).
  - apply list_elem_of_further, list_elem_of_here.
Defined.
